(** * Dynamic symbol resolution of the Dart VM's FFI (runtime/lib/ffi_dynamic_library.cc)

    A shallow embedding of the non-simulator half of the file: the platform
    loader wrappers, [ResolveSymbol], [SymbolExists], the Windows process-wide
    scanner [LookupSymbolInProcess], the [Ffi_dl_*] native entries and the
    FFI native resolver [FfiResolve].

    Modelling conventions.
    - A machine word (void*, intptr_t, uintptr_t, HANDLE, HMODULE) is its bit
      pattern, a [Z] in [0, 2^bits).  Same-width [reinterpret_cast]s keep the
      bit pattern and are the identity; conversions that change the width are
      written out.  The null pointer is [0].
    - A [char*] error slot is an [option string]: [None] is nullptr.  Every
      caller in the file initialises its slot to nullptr, so a function's
      error result is the final content of the slot.
    - The C heap of error messages is a multiset of strings (a list):
      [OS::SCreate] and [strdup] add a message, [free] removes one.
    - OS calls are recorded in a trace, so that "never calls X" is a
      statement about the trace.
    - Native entries either return a value or throw an [ArgumentError]. *)

From Stdlib Require Import ZArith Lia String List.
From stdpp Require Import base gmap strings.
Import ListNotations.
Open Scope Z_scope.

(* ------------------------------------------------------------------ *)
(** ** Strings *)

(** Printf-style formatting: the pieces of the format string and the
    substituted arguments, concatenated. *)
Definition fmt (pieces : list string) : string := String.concat "" pieces.

Fixpoint str_prefix (p s : string) : bool :=
  match p, s with
  | EmptyString, _ => true
  | String a p', String b s' => Ascii.eqb a b && str_prefix p' s'
  | String _ _, EmptyString => false
  end.

(** [needle] occurs somewhere inside [hay]. *)
Fixpoint substring_b (needle hay : string) : bool :=
  str_prefix needle hay ||
  match hay with
  | EmptyString => false
  | String _ hay' => substring_b needle hay'
  end.

(* ------------------------------------------------------------------ *)
(** ** The environment: platform, OS loader state and VM libraries *)

Inductive Platform := Windows | Posix.

(** A native resolver installed by an asset:
    a C function from (name, args_n) to a pointer. *)
Definition Dart_FfiNativeResolver := string -> Z -> Z.

(** The part of a VM [Library] the file reads. *)
Record Library := mkLibrary { ffi_native_resolver : option Dart_FfiNativeResolver }.

(** What the OS and the VM answer; read-only for this file. *)
Record Env := mkEnv {
  env_platform : Platform;
  env_bits : Z;                                (* pointer width: 32 or 64 *)
  env_rtld_default : Z;                        (* RTLD_DEFAULT on POSIX *)
  env_load : option string -> Z;               (* dlopen/LoadLibraryW/GetModuleHandle(nullptr); 0 on failure *)
  env_load_diag : option string -> string;     (* dlerror/GetLastError text after a failed load *)
  env_sym : Z -> string -> Z;                  (* dlsym/GetProcAddress; 0 when absent *)
  env_sym_diag : Z -> string -> string;        (* dlerror/GetLastError text after a failed lookup *)
  env_open_process : bool;                     (* OpenProcess(...) != nullptr *)
  env_enum_ok : bool;                          (* EnumProcessModules(...) != 0 *)
  env_modules : list Z;                        (* all loaded modules, in enumeration order *)
  env_stack_past : nat -> Z;                   (* the stack words lying past modules[1024] *)
  env_cotask_alloc : Z;                        (* what CoTaskMemAlloc returns; 0 on failure *)
  env_libraries : gmap string Library          (* Library::LookupLibrary by URL *)
}.

(** OS calls, in the order they are made. *)
Inductive Event :=
| EvLoad (path : option string)              (* the platform loader *)
| EvUtilsResolve (handle : Z) (symbol : string) (* Utils::ResolveSymbolInDynamicLibrary *)
| EvCoTaskMemAlloc
| EvCoTaskMemFree (p : Z)
| EvOpenProcess
| EvEnumProcessModules
| EvGetProcAddress (module : Z) (symbol : string)
| EvCloseHandle
| EvResolver (symbol : string) (args_n : Z).  (* a call of an asset's native resolver *)

(** The mutable state. *)
Record World := mkWorld {
  w_heap : list string;                 (* malloc'ed error messages not yet freed *)
  w_trace : list Event;
  w_co_task_mem_allocated : Z;          (* the global [co_task_mem_allocated] *)
  w_cotask_live : list Z                (* live CoTaskMem blocks *)
}.

(* ------------------------------------------------------------------ *)
(** ** A reader-state monad *)

Definition M (A : Type) : Type := Env -> World -> A * World.

Global Instance M_ret : MRet M := fun A a _ w => (a, w).
Global Instance M_bind : MBind M :=
  fun A B k m env w => let '(a, w') := m env w in k a env w'.

Definition ask : M Env := fun env w => (env, w).

Definition emit (e : Event) : M unit :=
  fun _ w => (tt, mkWorld (w_heap w) (w_trace w ++ [e])
                          (w_co_task_mem_allocated w) (w_cotask_live w)).

Fixpoint remove_one (s : string) (h : list string) : list string :=
  match h with
  | [] => []
  | x :: h' => if String.eqb x s then h' else x :: remove_one s h'
  end.

(** [OS::SCreate(nullptr, ...)] and [strdup]: a fresh malloc'ed message. *)
Definition malloc_str (s : string) : M string :=
  fun _ w => (s, mkWorld (s :: w_heap w) (w_trace w)
                         (w_co_task_mem_allocated w) (w_cotask_live w)).

Definition free (s : string) : M unit :=
  fun _ w => (tt, mkWorld (remove_one s (w_heap w)) (w_trace w)
                          (w_co_task_mem_allocated w) (w_cotask_live w)).

Definition get_co_task_mem_allocated : M Z :=
  fun _ w => (w_co_task_mem_allocated w, w).

Definition set_co_task_mem_allocated (p : Z) : M unit :=
  fun _ w => (tt, mkWorld (w_heap w) (w_trace w) p (w_cotask_live w)).

Fixpoint remove_ptr (p : Z) (l : list Z) : list Z :=
  match l with
  | [] => []
  | x :: l' => if Z.eqb x p then l' else x :: remove_ptr p l'
  end.

Definition set_cotask_live (l : list Z) : M unit :=
  fun _ w => (tt, mkWorld (w_heap w) (w_trace w) (w_co_task_mem_allocated w) l).

Definition get_cotask_live : M (list Z) := fun _ w => (w_cotask_live w, w).

Definition CoTaskMemAlloc : M Z :=
  emit EvCoTaskMemAlloc;;
  env ← ask;
  let p := env_cotask_alloc env in
  live ← get_cotask_live;
  set_cotask_live (if Z.eqb p 0 then live else p :: live);;
  mret p.

(** [CoTaskMemFree(nullptr)] does nothing. *)
Definition CoTaskMemFree (p : Z) : M unit :=
  emit (EvCoTaskMemFree p);;
  live ← get_cotask_live;
  set_cotask_live (if Z.eqb p 0 then live else remove_ptr p live).

(* ------------------------------------------------------------------ *)
(** ** Platform helpers of runtime/platform/utils.cc (not part of this file) *)

(** Modelled from the spec: [Utils::LoadDynamicLibrary], which lives in
    runtime/platform/utils.cc.  Section 4.1 of the spec: a failed open yields
    a null handle and an error holding the OS diagnostic; a successful one a
    non-null handle and no error. *)
Definition Utils_LoadDynamicLibrary (library_file : option string)
  : M (Z * option string) :=
  emit (EvLoad library_file);;
  env ← ask;
  let handle := env_load env library_file in
  if Z.eqb handle 0 then
    e ← malloc_str (env_load_diag env library_file);
    mret (0, Some e)
  else mret (handle, None).

(** Modelled from the spec: [Utils::ResolveSymbolInDynamicLibrary], which
    lives in runtime/platform/utils.cc.  Section 4.2 of the spec: success
    yields a non-null pointer, failure a null pointer and an error with the
    OS-level reason. *)
Definition Utils_ResolveSymbolInDynamicLibrary (handle : Z) (symbol : string)
  : M (Z * option string) :=
  emit (EvUtilsResolve handle symbol);;
  env ← ask;
  let result := env_sym env handle symbol in
  if Z.eqb result 0 then
    e ← malloc_str (env_sym_diag env handle symbol);
    mret (0, Some e)
  else mret (result, None).

(* ------------------------------------------------------------------ *)
(** ** The file's functions *)

(** [LoadDynamicLibrary(library_file, error)]; [want_error] is
    [error != nullptr]. *)
Definition LoadDynamicLibrary (library_file : option string) (want_error : bool)
  : M (Z * option string) :=
  '(handle, utils_error) ← Utils_LoadDynamicLibrary library_file;
  match utils_error with
  | Some ue =>
      error ← (if want_error then
                 m ← malloc_str (fmt ["Failed to load dynamic library '";
                                      default "<process>" library_file;
                                      "': "; ue]);
                 mret (Some m)
               else mret None);
      free ue;;
      mret (handle, error)
  | None => mret (handle, None)
  end.

(** On Windows, nullptr signals a lookup in all loaded modules. *)
Definition kWindowsDynamicLibraryProcessPtr : Z := 0.

(** [sizeof(modules) / sizeof(HMODULE)]. *)
Definition modules_capacity : nat := 1024.

Definition OpenProcess : M bool :=
  emit EvOpenProcess;; env ← ask; mret (env_open_process env).

(** [EnumProcessModules(current_process, modules, sizeof(modules), &cb_needed)]:
    success flag and [cb_needed / sizeof(HMODULE)], the number of modules the
    process has (which may exceed the capacity of the buffer). *)
Definition EnumProcessModules : M (bool * nat) :=
  emit EvEnumProcessModules;;
  env ← ask;
  mret (env_enum_ok env, length (env_modules env)).

(** [modules[i]]: the buffer holds the first 1024 modules; an index past the
    array reads the stack beyond it. *)
Definition modules_at (env : Env) (i : nat) : Z :=
  if Nat.ltb i modules_capacity then nth i (env_modules env) 0
  else env_stack_past env (i - modules_capacity).

Definition GetProcAddress (module : Z) (symbol : string) : M Z :=
  emit (EvGetProcAddress module symbol);;
  env ← ask;
  mret (env_sym env module symbol).

Definition CloseHandle : M unit := emit EvCloseHandle.

(** The loop [for (i = 0; i < cb_needed / sizeof(HMODULE); i++)] over the
    module handles it reads, in order; [Some result] on the first hit. *)
Fixpoint scan_modules (mods : list Z) (symbol : string) : M (option Z) :=
  match mods with
  | [] => mret None
  | m :: rest =>
      result ← GetProcAddress m symbol;
      if Z.eqb result 0 then scan_modules rest symbol else mret (Some result)
  end.

Definition not_found_message (symbol : string) : string :=
  fmt ["None of the loaded modules contained the requested symbol '"; symbol; "'."].

Definition open_process_message : string := "Failed to open current process.".

(** [LookupSymbolInProcess(symbol, error)] (Windows only). *)
Definition LookupSymbolInProcess (symbol : string) : M (Z * option string) :=
  (* Force loading ole32.dll. *)
  g ← get_co_task_mem_allocated;
  (if Z.eqb g 0 then
     p ← CoTaskMemAlloc;
     set_co_task_mem_allocated p;;
     CoTaskMemFree p
   else mret ());;
  current_process ← OpenProcess;
  if negb current_process then
    e ← malloc_str open_process_message;
    mret (0, Some e)
  else
    enum ← EnumProcessModules;
    let '(enum_ok, count) := (enum : bool * nat) in
    env ← ask;
    found ← (if enum_ok then scan_modules (map (modules_at env) (seq 0 count)) symbol
             else mret None : M (option Z));
    match found with
    | Some result => CloseHandle;; mret (result, None)
    | None =>
        CloseHandle;;
        e ← malloc_str (not_found_message symbol);
        mret (0, Some e)
    end.

(** [ResolveSymbol(handle, symbol, error)]. *)
Definition ResolveSymbol (handle : Z) (symbol : string) : M (Z * option string) :=
  env ← ask;
  match env_platform env with
  | Windows =>
      if Z.eqb handle kWindowsDynamicLibraryProcessPtr
      then LookupSymbolInProcess symbol
      else Utils_ResolveSymbolInDynamicLibrary handle symbol
  | Posix => Utils_ResolveSymbolInDynamicLibrary handle symbol
  end.

(** [SymbolExists(handle, symbol)]. *)
Definition SymbolExists (handle : Z) (symbol : string) : M bool :=
  env ← ask;
  '(_, error) ← (match env_platform env with
                 | Posix => Utils_ResolveSymbolInDynamicLibrary handle symbol
                 | Windows =>
                     if Z.eqb handle 0 then LookupSymbolInProcess symbol
                     else Utils_ResolveSymbolInDynamicLibrary handle symbol
                 end);
  match error with
  | Some e => free e;; mret false
  | None => mret true
  end.

(* ------------------------------------------------------------------ *)
(** ** Native entries *)

(** A native entry returns a Dart value or throws an [ArgumentError]. *)
Inductive DartResult (A : Type) :=
| Value (a : A)
| ArgumentError (msg : string).
Arguments Value {A} a.
Arguments ArgumentError {A} msg.

(** A Dart [DynamicLibrary] object: [DynamicLibrary::New(handle)] and
    [dlib.GetHandle()]. *)
Record DynamicLibrary := DynamicLibrary_New { GetHandle : Z }.

(** Converting a pointer-width word to [intptr_t]: its two's-complement value. *)
Definition intptr_value (bits v : Z) : Z :=
  if Z.ltb v (2 ^ (bits - 1)) then v else v - 2 ^ bits.

(** The implicit conversion of an integer to [uint64_t]. *)
Definition to_uint64 (x : Z) : Z := x mod 2 ^ 64.

Definition Ffi_dl_open (lib_path : string) : M (DartResult DynamicLibrary) :=
  '(handle, error) ← LoadDynamicLibrary (Some lib_path) true;
  match error with
  | Some e =>
      (* String::New(error) copies the message before it is freed. *)
      free e;;
      mret (ArgumentError e)
  | None => mret (Value (DynamicLibrary_New handle))
  end.

Definition Ffi_dl_processLibrary : M (DartResult DynamicLibrary) :=
  env ← ask;
  match env_platform env with
  | Posix => mret (Value (DynamicLibrary_New (env_rtld_default env)))
  | Windows => mret (Value (DynamicLibrary_New kWindowsDynamicLibraryProcessPtr))
  end.

Definition Ffi_dl_executableLibrary : M (DartResult DynamicLibrary) :=
  r ← LoadDynamicLibrary None false;
  mret (Value (DynamicLibrary_New (fst r))).

Definition Ffi_dl_lookup (dlib : DynamicLibrary) (argSymbolName : string)
  : M (DartResult Z) :=
  '(pointer, error) ← ResolveSymbol (GetHandle dlib) argSymbolName;
  match error with
  | Some e =>
      let msg := fmt ["Failed to lookup symbol '"; argSymbolName; "': "; e] in
      free e;;
      mret (ArgumentError msg)
  | None => mret (Value pointer)
  end.

(** [Integer::NewFromUint64(reinterpret_cast<intptr_t>(dlib.GetHandle()))]:
    the argument value handed to [NewFromUint64]. *)
Definition Ffi_dl_getHandle (dlib : DynamicLibrary) : M (DartResult Z) :=
  env ← ask;
  let handle := intptr_value (env_bits env) (GetHandle dlib) in
  mret (Value (to_uint64 handle)).

Definition Ffi_dl_providesSymbol (dlib : DynamicLibrary) (argSymbolName : string)
  : M (DartResult bool) :=
  b ← SymbolExists (GetHandle dlib) argSymbolName;
  mret (Value b).

(* ------------------------------------------------------------------ *)
(** ** The FFI native resolver *)

(** [GetFfiNativeResolver]: [None] is nullptr, no resolver installed. *)
Definition GetFfiNativeResolver (lib_url_str : string)
  : M (option Dart_FfiNativeResolver) :=
  env ← ask;
  match env_libraries env !! lib_url_str with
  | None => mret None
  | Some lib => mret (ffi_native_resolver lib)
  end.

Definition call_resolver (resolver : Dart_FfiNativeResolver) (symbol : string)
  (args_n : Z) : M Z :=
  emit (EvResolver symbol args_n);;
  mret (resolver symbol args_n).

Definition FfiResolveWithFfiNativeResolver (resolver : Dart_FfiNativeResolver)
  (symbol : string) (args_n : Z) : M (Z * option string) :=
  result ← call_resolver resolver symbol args_n;
  if Z.eqb result 0 then
    e ← malloc_str (fmt ["Couldn't resolve function: '"; symbol; "'"]);
    mret (result, Some e)
  else mret (result, None).

Definition newline : string := String (Ascii.ascii_of_nat 10) EmptyString.

Definition ThrowFfiResolveError (symbol asset error : string) : M (DartResult Z) :=
  let error_message :=
    fmt ["Couldn't resolve native function '"; symbol; "' in '"; asset; "' : ";
         error; "."; newline] in
  free error;;
  mret (ArgumentError error_message).

(** [FfiResolve(asset, symbol, args_n)]: the pointer as [intptr_t], or a
    thrown [ArgumentError]. *)
Definition FfiResolve (asset symbol : string) (args_n : Z) : M (DartResult Z) :=
  resolver ← GetFfiNativeResolver asset;
  match resolver with
  | Some r =>
      '(ffi_native_result, error) ← FfiResolveWithFfiNativeResolver r symbol args_n;
      match error with
      | Some e => ThrowFfiResolveError symbol asset e
      | None => mret (Value ffi_native_result)
      end
  | None =>
      (* Resolution in current process. *)
      env ← ask;
      '(result, error) ← (match env_platform env with
                          | Posix => Utils_ResolveSymbolInDynamicLibrary
                                       (env_rtld_default env) symbol
                          | Windows => LookupSymbolInProcess symbol
                          end);
      match error with
      | Some e => ThrowFfiResolveError symbol asset e
      | None => mret (Value result)
      end
  end.

(* ------------------------------------------------------------------ *)
(** ** Runs of native entries *)

Inductive Op :=
| OpOpen (path : string)
| OpProcessLibrary
| OpExecutableLibrary
| OpLookup (dlib : DynamicLibrary) (symbol : string)
| OpGetHandle (dlib : DynamicLibrary)
| OpProvidesSymbol (dlib : DynamicLibrary) (symbol : string)
| OpFfiResolve (asset symbol : string) (args_n : Z).

Definition run_op (o : Op) : M unit :=
  match o with
  | OpOpen p => Ffi_dl_open p;; mret ()
  | OpProcessLibrary => Ffi_dl_processLibrary;; mret ()
  | OpExecutableLibrary => Ffi_dl_executableLibrary;; mret ()
  | OpLookup d s => Ffi_dl_lookup d s;; mret ()
  | OpGetHandle d => Ffi_dl_getHandle d;; mret ()
  | OpProvidesSymbol d s => Ffi_dl_providesSymbol d s;; mret ()
  | OpFfiResolve a s n => FfiResolve a s n;; mret ()
  end.

Fixpoint run_ops (ops : list Op) : M unit :=
  match ops with
  | [] => mret ()
  | o :: rest => run_op o;; run_ops rest
  end.

(* ------------------------------------------------------------------ *)
(** ** What the module scan computes *)

(** The first module, in enumeration order, whose lookup is non-null. *)
Fixpoint first_hit (env : Env) (mods : list Z) (symbol : string) : option Z :=
  match mods with
  | [] => None
  | m :: rest =>
      if Z.eqb (env_sym env m symbol) 0 then first_hit env rest symbol
      else Some (env_sym env m symbol)
  end.

(** The lookups made: every module up to and including the first hit. *)
Fixpoint probes (env : Env) (mods : list Z) (symbol : string) : list Event :=
  match mods with
  | [] => []
  | m :: rest =>
      EvGetProcAddress m symbol ::
      (if Z.eqb (env_sym env m symbol) 0 then probes env rest symbol else [])
  end.

(** The result of a function with an error slot never carries both a
    non-null pointer and an error. *)
Definition exclusive (r : Z * option string) : Prop :=
  (fst r <> 0 -> snd r = None) /\ (snd r <> None -> fst r = 0).

(** The events of the one-time initialisation at the start of a scan. *)
Definition init_events (env : Env) (w : World) : list Event :=
  if Z.eqb (w_co_task_mem_allocated w) 0
  then [EvCoTaskMemAlloc; EvCoTaskMemFree (env_cotask_alloc env)] else [].

(** A step of the one-time initialisation state: no CoTaskMem block is left
    allocated, the trace grows, an initialised guard stays as it is and is
    not initialised again, an uninitialised one stays null or becomes the
    block CoTaskMemAlloc returned. *)
Definition guard_step (env : Env) (w w' : World) : Prop :=
  w_cotask_live w' = w_cotask_live w /\
  exists new, w_trace w' = w_trace w ++ new /\
    (w_co_task_mem_allocated w <> 0 ->
       w_co_task_mem_allocated w' = w_co_task_mem_allocated w /\
       ~ In EvCoTaskMemAlloc new) /\
    (w_co_task_mem_allocated w = 0 ->
       w_co_task_mem_allocated w' = 0 \/
       w_co_task_mem_allocated w' = env_cotask_alloc env).

Definition Preserves {A} (m : M A) : Prop :=
  forall env w, guard_step env w (snd (m env w)).

(* ------------------------------------------------------------------ *)
(** ** Sample environments *)

(** An asset's resolver that knows one function. *)
Definition sample_resolver : Dart_FfiNativeResolver :=
  fun s _ => if String.eqb s "add_ints" then 4096 else 0.

Definition sample_lib : Library := mkLibrary (Some sample_resolver).

(** Loaded modules 55, 77 and 88; module 77 exports [puts]; the library
    [libfoo] loads, any other path fails; the main executable's handle is
    [main_handle]. *)
Definition sample_env (p : Platform) (bits : Z) (open_ok : bool) (main_handle : Z)
  : Env :=
  mkEnv p bits 0
    (fun path => match path with
                 | None => main_handle
                 | Some f => if String.eqb f "libfoo" then 65536 else 0
                 end)
    (fun _ => "No such file or directory")
    (fun h s => if Z.eqb h 77 && String.eqb s "puts" then 999 else 0)
    (fun _ s => fmt ["undefined symbol: "; s])
    open_ok true [55; 77; 88] (fun _ => 0) 5000
    (<["my_asset" := sample_lib]> (∅ : gmap string Library)).

Definition sample_world : World := mkWorld [] [] 0 [].

(** A computation that leaves the heap of error messages as it found it:
    every message it mallocs is freed again. *)
Definition HeapNeutral {A} (m : M A) : Prop :=
  forall env w, w_heap (snd (m env w)) = w_heap w.

(* ================================================================== *)
(** * Lemmas *)

(** ** Strings *)

Lemma string_app_nil (b : string) : String.append EmptyString b = b.
Proof. reflexivity. Qed.

Lemma string_app_cons (x : Ascii.ascii) (a b : string) :
  String.append (String x a) b = String x (String.append a b).
Proof. reflexivity. Qed.

Lemma string_app_nil_r (a : string) : String.append a EmptyString = a.
Proof.
  induction a as [|x a IH]; [reflexivity|]. now rewrite string_app_cons, IH.
Qed.

Lemma string_app_assoc (a b c : string) :
  String.append (String.append a b) c = String.append a (String.append b c).
Proof.
  induction a as [|x a IH]; [reflexivity|].
  now rewrite !string_app_cons, IH.
Qed.

Lemma str_prefix_app (p s : string) : str_prefix p (String.append p s) = true.
Proof.
  induction p as [|x p IH]; [reflexivity|].
  rewrite string_app_cons. simpl. now rewrite Ascii.eqb_refl, IH.
Qed.

Lemma substring_b_here (needle hay : string) :
  str_prefix needle hay = true -> substring_b needle hay = true.
Proof. destruct hay; simpl; intros ->; reflexivity. Qed.

Lemma substring_b_app (needle pre post : string) :
  substring_b needle (String.append pre (String.append needle post)) = true.
Proof.
  induction pre as [|x pre IH].
  - rewrite string_app_nil. apply substring_b_here, str_prefix_app.
  - rewrite string_app_cons. simpl. rewrite IH. apply Bool.orb_true_r.
Qed.

Lemma fmt_cons (a b : string) (l : list string) :
  fmt (a :: b :: l) = String.append a (fmt (b :: l)).
Proof. reflexivity. Qed.

Lemma fmt_split (x : string) (pieces : list string) :
  In x pieces ->
  exists pre post, fmt pieces = String.append pre (String.append x post).
Proof.
  induction pieces as [|a l IH]; intros Hin; [destruct Hin|].
  destruct l as [|b l].
  - destruct Hin as [<-|[]]. exists EmptyString, EmptyString.
    now rewrite string_app_nil, string_app_nil_r.
  - rewrite fmt_cons. destruct Hin as [<-|Hin].
    + exists EmptyString, (fmt (b :: l)). reflexivity.
    + destruct (IH Hin) as (pre & post & Hf). rewrite Hf.
      exists (String.append a pre), post. symmetry. apply string_app_assoc.
Qed.

Lemma substring_b_fmt (x : string) (pieces : list string) :
  In x pieces -> substring_b x (fmt pieces) = true.
Proof.
  intros Hin. destruct (fmt_split x pieces Hin) as (pre & post & ->).
  apply substring_b_app.
Qed.

(** ** The monad *)

Ltac mstep :=
  repeat (unfold mbind, M_bind, mret, M_ret, ask, emit, malloc_str, free,
            get_co_task_mem_allocated, set_co_task_mem_allocated,
            get_cotask_live, set_cotask_live in *; cbn [fst snd w_heap w_trace
            w_co_task_mem_allocated w_cotask_live] in *).

Lemma remove_one_head (s : string) (h : list string) : remove_one s (s :: h) = h.
Proof. simpl. now rewrite String.eqb_refl. Qed.

Ltac unfold_resolver :=
  unfold FfiResolve, GetFfiNativeResolver, FfiResolveWithFfiNativeResolver,
    call_resolver, ThrowFfiResolveError; mstep; cbn beta iota.

(* ================================================================== *)
(** * The native resolver of an asset (spec 4.4) *)

(** C1: when the asset has a registered native resolver, [FfiResolve] calls
    it once with [(symbol, args_n)] and nothing else: it returns the
    resolver's non-null pointer as is, or, on a null result, throws an error
    naming both the symbol and the asset.  It makes no OS call (the trace
    only records the resolver call), frees the intermediate message, and its
    result does not depend on anything of the environment but the library
    registry: whatever a process-wide search would find plays no part. *)
Theorem FfiResolve_registered_resolver (env : Env) (w : World)
  (asset symbol : string) (n : Z) (lib : Library) (r : Dart_FfiNativeResolver) :
  env_libraries env !! asset = Some lib ->
  ffi_native_resolver lib = Some r ->
  (forall env' : Env, env_libraries env' = env_libraries env ->
     FfiResolve asset symbol n env' w = FfiResolve asset symbol n env w) /\
  let '(res, w') := FfiResolve asset symbol n env w in
  w_trace w' = w_trace w ++ [EvResolver symbol n] /\
  w_heap w' = w_heap w /\
  (r symbol n <> 0 -> res = Value (r symbol n)) /\
  (r symbol n = 0 -> exists msg, res = ArgumentError msg /\
     substring_b symbol msg = true /\ substring_b asset msg = true).
Proof.
  intros Hl Hr. split.
  - intros env' Henv. unfold_resolver. rewrite Henv, Hl, Hr.
    destruct (Z.eqb (r symbol n) 0); reflexivity.
  - unfold_resolver. rewrite Hl, Hr.
    destruct (Z.eqb_spec (r symbol n) 0) as [H0|H0]; cbn -[fmt].
    + rewrite String.eqb_refl.
      split; [reflexivity|]. split; [reflexivity|]. split; [intros []; exact H0|].
      intros _. eexists. split; [reflexivity|].
      split; apply substring_b_fmt; simpl; tauto.
    + split; [reflexivity|]. split; [reflexivity|].
      split; [reflexivity|]. intros H; contradiction.
Qed.

Lemma GetFfiNativeResolver_none (env : Env) (w : World) (asset : string) :
  (forall lib, env_libraries env !! asset = Some lib -> ffi_native_resolver lib = None) ->
  GetFfiNativeResolver asset env w = (None, w).
Proof.
  intros Hreg. unfold GetFfiNativeResolver; mstep.
  destruct (env_libraries env !! asset) as [lib|] eqn:E; [|reflexivity].
  now rewrite (Hreg lib eq_refl).
Qed.

(** C2: without a registered resolver, [FfiResolve] is [ResolveSymbol] on
    the handle of [Ffi_dl_processLibrary]: it returns exactly the pointer
    [ResolveSymbol] returns when that sets no error, and throws exactly when
    [ResolveSymbol] sets an error; both make the same OS calls and leave the
    same one-time initialisation state. *)
Theorem FfiResolve_unregistered_is_process_resolve (env : Env) (w : World)
  (asset symbol : string) (n : Z) (dl : DynamicLibrary) (w1 : World) :
  (forall lib, env_libraries env !! asset = Some lib -> ffi_native_resolver lib = None) ->
  Ffi_dl_processLibrary env w = (Value dl, w1) ->
  let '(res, w2) := FfiResolve asset symbol n env w in
  let '((p, err), w3) := ResolveSymbol (GetHandle dl) symbol env w in
  (forall v, res = Value v <-> (err = None /\ v = p)) /\
  ((exists msg, res = ArgumentError msg) <-> err <> None) /\
  w_trace w2 = w_trace w3 /\
  w_co_task_mem_allocated w2 = w_co_task_mem_allocated w3.
Proof.
  intros Hreg Hdl.
  unfold FfiResolve. unfold mbind at 1, M_bind at 1.
  rewrite (GetFfiNativeResolver_none env w asset Hreg).
  cbn -[LookupSymbolInProcess Utils_ResolveSymbolInDynamicLibrary fmt].
  unfold Ffi_dl_processLibrary, ResolveSymbol in *. mstep.
  destruct (env_platform env); cbn -[LookupSymbolInProcess Utils_ResolveSymbolInDynamicLibrary fmt] in *;
    injection Hdl as <- <-; cbn -[LookupSymbolInProcess Utils_ResolveSymbolInDynamicLibrary fmt];
    [ destruct (LookupSymbolInProcess symbol env w) as [[p [e|]] w']
    | destruct (Utils_ResolveSymbolInDynamicLibrary (env_rtld_default env) symbol env w)
        as [[p [e|]] w'] ];
    unfold ThrowFfiResolveError; mstep; cbn -[fmt];
    split_and!; try reflexivity; naive_solver.
Qed.

(** ** The module scan and the lookups *)

Lemma scan_modules_spec (mods : list Z) (symbol : string) (env : Env) (w : World) :
  scan_modules mods symbol env w =
  (first_hit env mods symbol,
   mkWorld (w_heap w) (w_trace w ++ probes env mods symbol)
           (w_co_task_mem_allocated w) (w_cotask_live w)).
Proof.
  revert w. induction mods as [|m rest IH]; intros w; simpl.
  - unfold mret, M_ret. rewrite app_nil_r. now destruct w.
  - unfold GetProcAddress. mstep. cbn beta iota.
    destruct (Z.eqb (env_sym env m symbol) 0).
    + rewrite IH. cbn. now rewrite <- app_assoc.
    + reflexivity.
Qed.

Lemma first_hit_nonzero (env : Env) (mods : list Z) (symbol : string) (r : Z) :
  first_hit env mods symbol = Some r -> r <> 0.
Proof.
  induction mods as [|m rest IH]; simpl; [discriminate|].
  destruct (Z.eqb_spec (env_sym env m symbol) 0); [exact IH|].
  intros H; injection H as <-; assumption.
Qed.

(** The shape of a result with an error slot: a non-null pointer and no
    error, or a null pointer and an error that was just malloc'ed. *)
Definition result_shape (w w' : World) (r : Z * option string) : Prop :=
  match r with
  | (p, None) => p <> 0 /\ w_heap w' = w_heap w
  | (p, Some e) => p = 0 /\ w_heap w' = e :: w_heap w
  end.

Lemma Utils_ResolveSymbolInDynamicLibrary_shape (handle : Z) (symbol : string)
  (env : Env) (w : World) :
  let '(r, w') := Utils_ResolveSymbolInDynamicLibrary handle symbol env w in
  result_shape w w' r.
Proof.
  unfold Utils_ResolveSymbolInDynamicLibrary. mstep. cbn beta iota.
  destruct (Z.eqb_spec (env_sym env handle symbol) 0); cbn; auto.
Qed.

Lemma LookupSymbolInProcess_shape (symbol : string) (env : Env) (w : World) :
  let '(r, w') := LookupSymbolInProcess symbol env w in
  result_shape w w' r.
Proof.
  unfold LookupSymbolInProcess, CoTaskMemAlloc, CoTaskMemFree, OpenProcess,
    EnumProcessModules, CloseHandle. mstep. cbn beta iota.
  destruct (Z.eqb (w_co_task_mem_allocated w) 0), (env_open_process env);
    cbn -[scan_modules not_found_message open_process_message]; auto.
  all: destruct (env_enum_ok env); cbn -[scan_modules not_found_message];
    try (split; reflexivity).
  all: rewrite scan_modules_spec; cbn -[first_hit not_found_message].
  all: match goal with
       | |- context [first_hit ?e ?l ?s] =>
           destruct (first_hit e l s) as [r|] eqn:Hf
       end; cbn; auto.
  all: split; [eapply first_hit_nonzero; eassumption | reflexivity].
Qed.

Lemma ResolveSymbol_shape (handle : Z) (symbol : string) (env : Env) (w : World) :
  let '(r, w') := ResolveSymbol handle symbol env w in
  result_shape w w' r.
Proof.
  unfold ResolveSymbol. mstep. cbn beta iota.
  destruct (env_platform env); [destruct (Z.eqb handle kWindowsDynamicLibraryProcessPtr)|].
  - apply LookupSymbolInProcess_shape.
  - apply Utils_ResolveSymbolInDynamicLibrary_shape.
  - apply Utils_ResolveSymbolInDynamicLibrary_shape.
Qed.

(** [SymbolExists] probes the same path as [ResolveSymbol]: [nullptr] is
    [kWindowsDynamicLibraryProcessPtr] on Windows. *)
Lemma SymbolExists_via_ResolveSymbol (handle : Z) (symbol : string)
  (env : Env) (w : World) :
  SymbolExists handle symbol env w =
  (let '((_, error), w') := ResolveSymbol handle symbol env w in
   match error with
   | Some e => free e;; mret false
   | None => mret true
   end env w').
Proof.
  unfold SymbolExists, ResolveSymbol, kWindowsDynamicLibraryProcessPtr. mstep.
  cbn beta iota.
  destruct (env_platform env); [destruct (Z.eqb handle 0)|];
    [ destruct (LookupSymbolInProcess symbol env w) as [[x [e|]] w']
    | destruct (Utils_ResolveSymbolInDynamicLibrary handle symbol env w) as [[x [e|]] w']
    | destruct (Utils_ResolveSymbolInDynamicLibrary handle symbol env w) as [[x [e|]] w'] ];
    reflexivity.
Qed.

(* ================================================================== *)
(** * Existence checks (spec 4.2) *)

(** C3: [SymbolExists handle S] is true exactly when [ResolveSymbol handle S]
    returns a non-null pointer with no error; it makes the same OS calls,
    and the error it may receive is freed: the heap of messages is the same
    before and after, whatever the outcome. *)
Theorem SymbolExists_iff_resolve (env : Env) (w : World) (handle : Z)
  (symbol : string) :
  let '(b, w1) := SymbolExists handle symbol env w in
  let '((p, err), w2) := ResolveSymbol handle symbol env w in
  (b = true <-> (p <> 0 /\ err = None)) /\
  w_heap w1 = w_heap w /\
  w_trace w1 = w_trace w2.
Proof.
  rewrite SymbolExists_via_ResolveSymbol.
  pose proof (ResolveSymbol_shape handle symbol env w) as Hs.
  destruct (ResolveSymbol handle symbol env w) as [[p [e|]] w'].
  - destruct Hs as [-> Hh]. mstep. cbn. rewrite Hh, remove_one_head.
    split_and!; try reflexivity. split; [discriminate | intros [[] _]; reflexivity].
  - destruct Hs as [Hp Hh]. mstep. cbn. rewrite Hh.
    split_and!; try reflexivity. tauto.
Qed.

(* ================================================================== *)
(** * Results and error slots (spec 3) *)

Lemma result_shape_exclusive (w w' : World) (r : Z * option string) :
  result_shape w w' r -> exclusive r.
Proof.
  destruct r as [p [e|]]; simpl; intros [Hp _]; split; try tauto.
Qed.

Lemma Utils_LoadDynamicLibrary_shape (path : option string) (env : Env) (w : World) :
  let '(r, w') := Utils_LoadDynamicLibrary path env w in result_shape w w' r.
Proof.
  unfold Utils_LoadDynamicLibrary. mstep. cbn beta iota.
  destruct (Z.eqb_spec (env_load env path) 0); cbn; auto.
Qed.

Lemma LoadDynamicLibrary_exclusive (path : option string) (want_error : bool)
  (env : Env) (w : World) :
  exclusive (fst (LoadDynamicLibrary path want_error env w)).
Proof.
  unfold LoadDynamicLibrary. unfold mbind at 1, M_bind at 1.
  pose proof (Utils_LoadDynamicLibrary_shape path env w) as Hs.
  destruct (Utils_LoadDynamicLibrary path env w) as [[h [ue|]] w'].
  - destruct Hs as [-> _]. destruct want_error; mstep; cbn;
      split; simpl; intros H; congruence.
  - destruct Hs as [Hh _]. mstep. cbn. split; simpl; intros H; congruence.
Qed.

(** C4: [LoadDynamicLibrary], [ResolveSymbol] and [LookupSymbolInProcess]
    never return a non-null pointer or handle together with an error: on
    success the error slot stays nullptr, and whenever the slot is set the
    pointer is null. *)
Theorem results_never_pointer_and_error (env : Env) (w : World) :
  (forall (path : option string) (want_error : bool),
     exclusive (fst (LoadDynamicLibrary path want_error env w))) /\
  (forall (handle : Z) (symbol : string),
     exclusive (fst (ResolveSymbol handle symbol env w))) /\
  (forall symbol : string,
     exclusive (fst (LookupSymbolInProcess symbol env w))).
Proof.
  split_and!.
  - intros path want_error. apply LoadDynamicLibrary_exclusive.
  - intros handle symbol. pose proof (ResolveSymbol_shape handle symbol env w) as Hs.
    destruct (ResolveSymbol handle symbol env w) as [r w'].
    eapply result_shape_exclusive; exact Hs.
  - intros symbol. pose proof (LookupSymbolInProcess_shape symbol env w) as Hs.
    destruct (LookupSymbolInProcess symbol env w) as [r w'].
    eapply result_shape_exclusive; exact Hs.
Qed.

(* ================================================================== *)
(** * The Windows process-wide scanner (spec 4.2, 4.3) *)

(** Unfolds [LookupSymbolInProcess] and splits on the one-time
    initialisation guard, [OpenProcess], [EnumProcessModules] and the scan. *)
Ltac lookup_cases :=
  unfold LookupSymbolInProcess, CoTaskMemAlloc, CoTaskMemFree, OpenProcess,
    EnumProcessModules, CloseHandle; mstep; cbn beta iota;
  let Hg := fresh "Hg" in let Ho := fresh "Ho" in let He := fresh "He" in
  destruct (Z.eqb (w_co_task_mem_allocated _) 0) eqn:Hg,
           (env_open_process _) eqn:Ho;
  cbn -[scan_modules not_found_message open_process_message];
  try (destruct (env_enum_ok _) eqn:He;
       cbn -[scan_modules not_found_message open_process_message]);
  try rewrite scan_modules_spec;
  cbn -[first_hit probes not_found_message open_process_message];
  try (match goal with
       | |- context [first_hit ?e ?l ?s] =>
           let Hf := fresh "Hf" in destruct (first_hit e l s) eqn:Hf
       end; cbn -[probes not_found_message open_process_message]).

Lemma probes_no_utils (env : Env) (mods : list Z) (symbol : string) (h : Z) (s : string) :
  ~ In (EvUtilsResolve h s) (probes env mods symbol).
Proof.
  induction mods as [|m rest IH]; simpl; [tauto|].
  intros [H|H]; [discriminate H|].
  destruct (Z.eqb (env_sym env m symbol) 0); [exact (IH H)|destruct H].
Qed.

Lemma LookupSymbolInProcess_no_utils (symbol : string) (env : Env) (w : World) :
  exists new, w_trace (snd (LookupSymbolInProcess symbol env w)) = w_trace w ++ new /\
    forall h s, ~ In (EvUtilsResolve h s) new.
Proof.
  lookup_cases;
    (eexists; split; [rewrite <- ?app_assoc; reflexivity|]);
    intros h s Hin; rewrite ?in_app_iff in Hin; simpl in Hin;
    repeat match goal with
           | H : _ \/ _ |- _ => destruct H as [H|H]
           | H : EvUtilsResolve _ _ = _ |- _ => discriminate H
           | H : _ = EvUtilsResolve _ _ |- _ => discriminate H
           | H : False |- _ => destruct H
           | H : In _ (probes _ _ _) |- _ => exact (probes_no_utils _ _ _ _ _ H)
           end.
Qed.

Lemma remove_one_second (m s : string) (h : list string) :
  remove_one s (m :: s :: h) = m :: h.
Proof.
  simpl. destruct (String.eqb_spec m s) as [->|]; [reflexivity|].
  now rewrite String.eqb_refl.
Qed.

Lemma LoadDynamicLibrary_shape (path : option string) (env : Env) (w : World) :
  let '(r, w') := LoadDynamicLibrary path true env w in result_shape w w' r.
Proof.
  unfold LoadDynamicLibrary. unfold mbind at 1, M_bind at 1.
  pose proof (Utils_LoadDynamicLibrary_shape path env w) as Hs.
  destruct (Utils_LoadDynamicLibrary path env w) as [[h [ue|]] w1].
  - destruct Hs as [-> Hh]. mstep. cbn -[fmt remove_one]. rewrite Hh.
    split; [reflexivity|]. apply remove_one_second.
  - exact Hs.
Qed.

Lemma Ffi_dl_open_handle_nonnull (path : string) (env : Env) (w : World)
  (dl : DynamicLibrary) (w' : World) :
  Ffi_dl_open path env w = (Value dl, w') -> GetHandle dl <> 0.
Proof.
  unfold Ffi_dl_open. unfold mbind at 1, M_bind at 1.
  pose proof (LoadDynamicLibrary_shape (Some path) env w) as Hs.
  destruct (LoadDynamicLibrary (Some path) true env w) as [[h [e|]] w1].
  - mstep. cbn. discriminate.
  - destruct Hs as [Hh _]. mstep. cbn. intros H; injection H as <- _. exact Hh.
Qed.

(** C5: on Windows, [ResolveSymbol] on the whole-process sentinel
    [kWindowsDynamicLibraryProcessPtr] is the process-wide scanner
    [LookupSymbolInProcess], and never calls the per-handle lookup
    [Utils::ResolveSymbolInDynamicLibrary]; the sentinel (nullptr) is never
    the handle of a library opened by [Ffi_dl_open]. *)
Theorem ResolveSymbol_sentinel_scans (env : Env) (w : World) (handle : Z)
  (symbol : string) :
  env_platform env = Windows ->
  handle = kWindowsDynamicLibraryProcessPtr ->
  ResolveSymbol handle symbol env w = LookupSymbolInProcess symbol env w /\
  (exists new, w_trace (snd (ResolveSymbol handle symbol env w)) = w_trace w ++ new /\
     forall h s, ~ In (EvUtilsResolve h s) new) /\
  (forall path dl w', Ffi_dl_open path env w = (Value dl, w') ->
     GetHandle dl <> kWindowsDynamicLibraryProcessPtr).
Proof.
  intros Hw ->.
  assert (Hr : ResolveSymbol kWindowsDynamicLibraryProcessPtr symbol env w =
               LookupSymbolInProcess symbol env w).
  { unfold ResolveSymbol. mstep. rewrite Hw. reflexivity. }
  split_and!.
  - exact Hr.
  - rewrite Hr. apply LookupSymbolInProcess_no_utils.
  - intros path dl w'. apply Ffi_dl_open_handle_nonnull.
Qed.

Lemma map_nth_seq (l : list Z) :
  map (fun i => nth i l 0) (seq 0 (length l)) = l.
Proof.
  induction l as [|a l IH]; [reflexivity|].
  simpl. f_equal. rewrite <- seq_shift, map_map. exact IH.
Qed.

(** With at most 1024 modules, the loop reads exactly the enumerated modules. *)
Lemma modules_view (env : Env) :
  (length (env_modules env) <= modules_capacity)%nat ->
  map (modules_at env) (seq 0 (length (env_modules env))) = env_modules env.
Proof.
  intros Hlen. rewrite <- (map_nth_seq (env_modules env)) at 2.
  apply map_ext_in. intros i Hi. apply in_seq in Hi.
  unfold modules_at. destruct (Nat.ltb_spec i modules_capacity); [reflexivity | lia].
Qed.

Lemma first_hit_none (env : Env) (mods : list Z) (symbol : string) :
  (forall m, In m mods -> env_sym env m symbol = 0) -> first_hit env mods symbol = None.
Proof.
  induction mods as [|m rest IH]; intros Hall; [reflexivity|]. simpl.
  rewrite (Hall m (or_introl eq_refl)). simpl.
  apply IH. intros m' Hm'. apply Hall. now right.
Qed.

Lemma first_hit_app (env : Env) (l1 l2 : list Z) (symbol : string) (r : Z) :
  first_hit env l1 symbol = Some r -> first_hit env (l1 ++ l2) symbol = Some r.
Proof.
  induction l1 as [|m rest IH]; simpl; [discriminate|].
  destruct (Z.eqb (env_sym env m symbol) 0); [exact IH | exact id].
Qed.

(** Whatever the count the enumeration reports, the loop first reads the
    modules held in the 1024-entry buffer. *)
Lemma modules_prefix (env : Env) :
  exists tail, map (modules_at env) (seq 0 (length (env_modules env))) =
               firstn modules_capacity (env_modules env) ++ tail.
Proof.
  set (n := length (env_modules env)). set (k := Nat.min modules_capacity n).
  replace n with (k + (n - k))%nat by lia.
  rewrite seq_app, map_app. eexists. f_equal.
  rewrite <- (map_nth_seq (firstn modules_capacity (env_modules env))).
  rewrite length_firstn. fold n. fold k.
  apply map_ext_in. intros i Hi. apply in_seq in Hi.
  unfold modules_at. rewrite nth_firstn.
  destruct (Nat.ltb_spec i modules_capacity); [reflexivity | lia].
Qed.

Lemma probes_app_hit (env : Env) (l1 l2 : list Z) (symbol : string) (r : Z) :
  first_hit env l1 symbol = Some r -> probes env (l1 ++ l2) symbol = probes env l1 symbol.
Proof.
  induction l1 as [|m rest IH]; simpl; [discriminate|].
  destruct (Z.eqb (env_sym env m symbol) 0); [intros H; f_equal; exact (IH H) | reflexivity].
Qed.

(** When the enumeration reports at most 1024 modules, or one of the
    modules in the buffer exports the symbol, the loop reads only the
    buffer: it finds and probes exactly what a scan of the buffered modules
    would. *)
Lemma scan_reads_buffer (env : Env) (symbol : string) :
  ((length (env_modules env) <= modules_capacity)%nat \/
   exists r, first_hit env (firstn modules_capacity (env_modules env)) symbol = Some r) ->
  first_hit env (map (modules_at env) (seq 0 (length (env_modules env)))) symbol =
    first_hit env (firstn modules_capacity (env_modules env)) symbol /\
  probes env (map (modules_at env) (seq 0 (length (env_modules env)))) symbol =
    probes env (firstn modules_capacity (env_modules env)) symbol.
Proof.
  intros [Hlen | [r Hr]].
  - rewrite modules_view by exact Hlen. rewrite firstn_all2 by exact Hlen. split; reflexivity.
  - destruct (modules_prefix env) as [tail ->]. rewrite Hr.
    split; [apply first_hit_app | apply (probes_app_hit _ _ _ _ r)]; exact Hr.
Qed.

(** C6 (as amended): after the one-time initialisation the scanner calls
    [OpenProcess].  If that fails it probes no module and returns null with
    the fixed error "Failed to open current process.", whatever the symbol.
    Once the handle is acquired, and when the loop reads only the 1024-entry
    buffer (the enumeration failed, it reports at most 1024 modules, or a
    buffered module exports the symbol), the scanner probes the buffered
    modules in enumeration order up to the first one exporting the symbol
    and returns that non-null hit with no error; when none does (or the
    enumeration call failed) it returns null with the error "None of the
    loaded modules contained the requested symbol 'S'.", which names the
    symbol.  The OS calls are the one-time initialisation, then
    OpenProcess, EnumProcessModules, the probes and CloseHandle. *)
Theorem LookupSymbolInProcess_scan (env : Env) (w : World) (symbol : string) :
  let buffer := firstn modules_capacity (env_modules env) in
  let mods := if env_enum_ok env then buffer else [] in
  let '((p, err), w') := LookupSymbolInProcess symbol env w in
  (env_open_process env = false ->
     p = 0 /\ err = Some open_process_message /\
     w_trace w' = w_trace w ++ init_events env w ++ [EvOpenProcess]) /\
  (env_open_process env = true ->
     (env_enum_ok env = false \/ (length (env_modules env) <= modules_capacity)%nat \/
      exists r, first_hit env buffer symbol = Some r) ->
     match first_hit env mods symbol with
     | Some r => p = r /\ r <> 0 /\ err = None
     | None => p = 0 /\ err = Some (not_found_message symbol) /\
               substring_b symbol (not_found_message symbol) = true
     end /\
     w_trace w' = w_trace w ++ init_events env w ++
                  [EvOpenProcess; EvEnumProcessModules] ++
                  probes env mods symbol ++ [EvCloseHandle]).
Proof.
  cbv zeta.
  assert (Hnf : substring_b symbol (not_found_message symbol) = true).
  { apply substring_b_fmt. simpl. tauto. }
  unfold init_events. lookup_cases.
  all: split; [ intros Hop; first [ congruence
                                  | split_and!; try reflexivity;
                                    rewrite <- ?app_assoc; reflexivity ] | ].
  all: intros Hop Hc; try congruence.
  all: try (destruct (scan_reads_buffer env symbol) as [Hf1 Hp1];
            [ destruct Hc as [Hc|Hc]; [discriminate Hc | exact Hc]
            | unfold modules_capacity in Hf1, Hp1; rewrite <- Hf1, <- Hp1, Hf ]).
  all: rewrite <- ?app_assoc; simpl.
  all: split; [split_and!; auto; eapply first_hit_nonzero; eassumption | reflexivity].
Qed.

(** C6 does not hold as stated: when [OpenProcess] fails, the scanner probes
    no module and returns null with "Failed to open current process.", which
    does not name the symbol, although module 77 exports [puts]. *)
Lemma LookupSymbolInProcess_open_failure_counterexample :
  let env := sample_env Windows 64 false 131072 in
  first_hit env (env_modules env) "puts" = Some 999 /\
  fst (LookupSymbolInProcess "puts" env sample_world) = (0, Some open_process_message) /\
  substring_b "puts" open_process_message = false.
Proof. vm_compute. split_and!; reflexivity. Qed.

(** C9: only a failure of [OpenProcess] yields "Failed to open current
    process."; when the process handle is acquired but
    [EnumProcessModules] fails, the scanner returns null with the same
    "None of the loaded modules contained the requested symbol 'S'." error
    as when no module it reads exports the symbol, so the two cases give
    the same result. *)
Theorem LookupSymbolInProcess_enum_failure_as_absence (env : Env) (w : World)
  (symbol : string) :
  (env_open_process env = false ->
     fst (LookupSymbolInProcess symbol env w) = (0, Some open_process_message)) /\
  (env_open_process env = true -> env_enum_ok env = false ->
     fst (LookupSymbolInProcess symbol env w) = (0, Some (not_found_message symbol))) /\
  (env_open_process env = true -> env_enum_ok env = true ->
     (forall m, In m (map (modules_at env) (seq 0 (length (env_modules env)))) ->
        env_sym env m symbol = 0) ->
     fst (LookupSymbolInProcess symbol env w) = (0, Some (not_found_message symbol))) /\
  not_found_message symbol <> open_process_message.
Proof.
  split_and!.
  - intros Ho. lookup_cases; congruence.
  - intros Ho He. lookup_cases; congruence.
  - intros Ho He Hall. lookup_cases; try congruence.
    all: rewrite first_hit_none in * by exact Hall; congruence.
  - unfold not_found_message, open_process_message, fmt. simpl. discriminate.
Qed.

(* ================================================================== *)
(** * Opening libraries (spec 4.1) *)

(** C7 does not hold as stated: [Ffi_dl_executableLibrary] calls
    [LoadDynamicLibrary(nullptr)] with no error slot, so when the main
    executable cannot be opened the error is freed and dropped: the result is
    a null handle with no error, and the entry returns a library whose
    handle is null instead of failing. *)
Lemma executableLibrary_failure_counterexample :
  let env := sample_env Windows 64 true 0 in
  env_load env None = 0 /\
  fst (LoadDynamicLibrary None false env sample_world) = (0, None) /\
  fst (Ffi_dl_executableLibrary env sample_world) = Value (DynamicLibrary_New 0).
Proof. vm_compute. split_and!; reflexivity. Qed.

(** C7 (code_bug): a failed open of a given path yields a null handle and
    the error "Failed to load dynamic library 'path': diagnostic", which
    holds both the path and the OS diagnostic, and [Ffi_dl_open] throws it.
    The request for the main executable is different: [LoadDynamicLibrary]
    would report "Failed to load dynamic library '<process>': diagnostic"
    into an error slot, but [Ffi_dl_executableLibrary] passes none, so the
    diagnostic is freed and dropped and the entry returns a library whose
    handle is null, with no error. *)
Theorem load_failure_error_reporting (env : Env) (w : World) (path : string) :
  (env_load env (Some path) = 0 ->
     (let '((h, err), _) := LoadDynamicLibrary (Some path) true env w in
      h = 0 /\ exists msg, err = Some msg /\
        substring_b path msg = true /\
        substring_b (env_load_diag env (Some path)) msg = true) /\
     (exists msg, fst (Ffi_dl_open path env w) = ArgumentError msg /\
        substring_b path msg = true /\
        substring_b (env_load_diag env (Some path)) msg = true)) /\
  (env_load env None = 0 ->
     fst (LoadDynamicLibrary None true env w) =
       (0, Some (fmt ["Failed to load dynamic library '"; "<process>"; "': ";
                      env_load_diag env None])) /\
     fst (LoadDynamicLibrary None false env w) = (0, None) /\
     fst (Ffi_dl_executableLibrary env w) = Value (DynamicLibrary_New 0) /\
     w_heap (snd (Ffi_dl_executableLibrary env w)) = w_heap w).
Proof.
  assert (Hmsg : forall d, substring_b path (fmt ["Failed to load dynamic library '";
                   path; "': "; d]) = true /\
                 substring_b d (fmt ["Failed to load dynamic library '";
                   path; "': "; d]) = true).
  { intros d. split; apply substring_b_fmt; simpl; tauto. }
  unfold Ffi_dl_open, Ffi_dl_executableLibrary, LoadDynamicLibrary,
    Utils_LoadDynamicLibrary.
  split; intros H0; mstep; rewrite H0; cbn -[fmt remove_one].
  - split.
    + split; [reflexivity|]. eexists; split; [reflexivity|].
      apply (Hmsg (env_load_diag env (Some path))).
    + eexists; split; [reflexivity|]. apply (Hmsg (env_load_diag env (Some path))).
  - rewrite remove_one_head. split_and!; reflexivity.
Qed.

(* ================================================================== *)
(** * The one-time allocator initialisation (spec 4.3, 4.4) *)

Lemma guard_step_refl (env : Env) (w : World) : guard_step env w w.
Proof.
  split; [reflexivity|]. exists []. rewrite app_nil_r.
  split_and!; [reflexivity| |]; intros; auto.
Qed.

Lemma guard_step_trans (env : Env) (w1 w2 w3 : World) :
  guard_step env w1 w2 -> guard_step env w2 w3 -> guard_step env w1 w3.
Proof.
  intros [L12 (n12 & T12 & S12 & U12)] [L23 (n23 & T23 & S23 & U23)].
  split; [congruence|]. exists (n12 ++ n23).
  split; [rewrite T23, T12; symmetry; apply app_assoc|]. split.
  - intros Hz. destruct (S12 Hz) as [G12 N12].
    rewrite G12 in S23. destruct (S23 Hz) as [G23 N23].
    split; [congruence|]. rewrite in_app_iff. tauto.
  - intros Hz. destruct (U12 Hz) as [G|G].
    + exact (U23 G).
    + destruct (Z.eq_dec (env_cotask_alloc env) 0) as [A|A].
      * rewrite A in G. destruct (U23 G) as [G'|G']; [left|right]; congruence.
      * rewrite G in S23. destruct (S23 A) as [G' _]. right. congruence.
Qed.

Lemma preserves_bind {A B} (m : M A) (k : A -> M B) :
  Preserves m -> (forall a, Preserves (k a)) -> Preserves (m ≫= k).
Proof.
  intros Hm Hk env w. unfold mbind, M_bind.
  specialize (Hm env w). destruct (m env w) as [a w1].
  eapply guard_step_trans; [exact Hm | apply Hk].
Qed.

Lemma preserves_ret {A} (a : A) : Preserves (mret a).
Proof. intros env w. apply guard_step_refl. Qed.

Lemma preserves_ask : Preserves ask.
Proof. intros env w. apply guard_step_refl. Qed.

Lemma preserves_emit (e : Event) : e <> EvCoTaskMemAlloc -> Preserves (emit e).
Proof.
  intros He env w. split; [reflexivity|]. exists [e]. cbn.
  split_and!; [reflexivity| |]; intros Hz; auto.
  split; [reflexivity|]. intros [H|[]]. congruence.
Qed.

Lemma preserves_malloc_str (s : string) : Preserves (malloc_str s).
Proof.
  intros env w. split; [reflexivity|]. exists []. cbn. rewrite app_nil_r.
  split_and!; [reflexivity| |]; intros; auto.
Qed.

Lemma preserves_free (s : string) : Preserves (free s).
Proof.
  intros env w. split; [reflexivity|]. exists []. cbn. rewrite app_nil_r.
  split_and!; [reflexivity| |]; intros; auto.
Qed.

Lemma probes_no_alloc (env : Env) (mods : list Z) (symbol : string) :
  ~ In EvCoTaskMemAlloc (probes env mods symbol).
Proof.
  induction mods as [|m rest IH]; simpl; [tauto|].
  intros [H|H]; [discriminate H|].
  destruct (Z.eqb (env_sym env m symbol) 0); [exact (IH H)|destruct H].
Qed.

Lemma preserves_LookupSymbolInProcess (symbol : string) :
  Preserves (LookupSymbolInProcess symbol).
Proof.
  intros env w. unfold guard_step. lookup_cases.
  all: split; [ try (destruct (Z.eqb (env_cotask_alloc env) 0); simpl;
                     rewrite ?Z.eqb_refl); reflexivity | ].
  all: eexists; split; [rewrite <- ?app_assoc; reflexivity|].
  all: first [ apply Z.eqb_eq in Hg | apply Z.eqb_neq in Hg ].
  all: split; intros Hz; try contradiction; auto.
  all: split; [reflexivity|].
  all: intros Hin; rewrite ?in_app_iff in Hin; simpl in Hin;
    repeat match goal with
           | H : _ \/ _ |- _ => destruct H as [H|H]
           | H : _ = EvCoTaskMemAlloc |- _ => discriminate H
           | H : False |- _ => destruct H
           | H : In _ (probes _ _ _) |- _ => exact (probes_no_alloc _ _ _ H)
           end.
Qed.

Create HintDb guard.
#[local] Hint Resolve preserves_ret preserves_ask preserves_malloc_str
  preserves_free preserves_LookupSymbolInProcess : guard.

Ltac solve_preserves :=
  repeat match goal with
         | |- forall _, _ => intros ?; cbv beta
         | |- Preserves (mbind _ _) => apply preserves_bind
         | |- Preserves (emit _) => apply preserves_emit; discriminate
         | |- Preserves (match ?x with _ => _ end) => destruct x
         | |- Preserves _ => solve [eauto with guard]
         end.

Lemma preserves_Utils_LoadDynamicLibrary (p : option string) :
  Preserves (Utils_LoadDynamicLibrary p).
Proof. unfold Utils_LoadDynamicLibrary. solve_preserves. Qed.
#[local] Hint Resolve preserves_Utils_LoadDynamicLibrary : guard.

Lemma preserves_Utils_ResolveSymbolInDynamicLibrary (h : Z) (s : string) :
  Preserves (Utils_ResolveSymbolInDynamicLibrary h s).
Proof. unfold Utils_ResolveSymbolInDynamicLibrary. solve_preserves. Qed.
#[local] Hint Resolve preserves_Utils_ResolveSymbolInDynamicLibrary : guard.

Lemma preserves_LoadDynamicLibrary (p : option string) (b : bool) :
  Preserves (LoadDynamicLibrary p b).
Proof. unfold LoadDynamicLibrary. solve_preserves. Qed.
#[local] Hint Resolve preserves_LoadDynamicLibrary : guard.

Lemma preserves_ResolveSymbol (h : Z) (s : string) : Preserves (ResolveSymbol h s).
Proof. unfold ResolveSymbol. solve_preserves. Qed.
#[local] Hint Resolve preserves_ResolveSymbol : guard.

Lemma preserves_SymbolExists (h : Z) (s : string) : Preserves (SymbolExists h s).
Proof. unfold SymbolExists. solve_preserves. Qed.
#[local] Hint Resolve preserves_SymbolExists : guard.

Lemma preserves_FfiResolve (asset symbol : string) (n : Z) :
  Preserves (FfiResolve asset symbol n).
Proof.
  unfold FfiResolve, GetFfiNativeResolver, FfiResolveWithFfiNativeResolver,
    call_resolver, ThrowFfiResolveError.
  solve_preserves.
Qed.
#[local] Hint Resolve preserves_FfiResolve : guard.

Lemma preserves_run_op (o : Op) : Preserves (run_op o).
Proof.
  destruct o; unfold run_op, Ffi_dl_open, Ffi_dl_processLibrary,
    Ffi_dl_executableLibrary, Ffi_dl_lookup, Ffi_dl_getHandle,
    Ffi_dl_providesSymbol; solve_preserves.
Qed.
#[local] Hint Resolve preserves_run_op : guard.

Lemma preserves_run_ops (ops : list Op) : Preserves (run_ops ops).
Proof. induction ops; simpl; solve_preserves. Qed.

(** C8: over any run of native entries, the one-time initialisation leaves
    no CoTaskMem block allocated (the block is freed at once, so performing
    it again changes nothing); once [co_task_mem_allocated] is non-null it
    keeps its value and no later call performs the initialisation again; a
    null guard only stays null or takes the value CoTaskMemAlloc returned,
    which the first scan stores. *)
Theorem co_task_mem_allocated_init_once (ops : list Op) (env : Env) (w : World) :
  let w' := snd (run_ops ops env w) in
  w_cotask_live w' = w_cotask_live w /\
  (exists new, w_trace w' = w_trace w ++ new /\
    (w_co_task_mem_allocated w <> 0 ->
       w_co_task_mem_allocated w' = w_co_task_mem_allocated w /\
       ~ In EvCoTaskMemAlloc new) /\
    (w_co_task_mem_allocated w = 0 ->
       w_co_task_mem_allocated w' = 0 \/
       w_co_task_mem_allocated w' = env_cotask_alloc env)) /\
  (forall symbol, w_co_task_mem_allocated w = 0 ->
     w_co_task_mem_allocated (snd (LookupSymbolInProcess symbol env w)) =
     env_cotask_alloc env).
Proof.
  cbv zeta. destruct (preserves_run_ops ops env w) as [Hl Ht].
  split_and!; [exact Hl | exact Ht |].
  intros symbol Hz. lookup_cases; try reflexivity.
  all: rewrite Hz in Hg; discriminate Hg.
Qed.

(* ================================================================== *)
(** * Library handles as integers *)

Lemma getHandle_64_bit (env : Env) (w : World) (h : Z) :
  env_bits env = 64 -> 0 <= h < 2 ^ 64 ->
  fst (Ffi_dl_getHandle (DynamicLibrary_New h) env w) = Value h.
Proof.
  intros Hb Hh. unfold Ffi_dl_getHandle. mstep. cbn. rewrite Hb.
  unfold intptr_value, to_uint64. f_equal.
  destruct (Z.ltb_spec h (2 ^ (64 - 1))).
  - apply Z.mod_small. lia.
  - rewrite <- (Z.mod_add _ 1 (2 ^ 64)) by lia.
    rewrite Z.mul_1_l, Z.sub_add. apply Z.mod_small. lia.
Qed.

Lemma getHandle_processLibrary_windows (env : Env) (w : World) (dl : DynamicLibrary)
  (w' : World) :
  env_platform env = Windows -> 8 <= env_bits env ->
  Ffi_dl_processLibrary env w = (Value dl, w') ->
  fst (Ffi_dl_getHandle dl env w') = Value 0.
Proof.
  intros Hp Hb. unfold Ffi_dl_processLibrary. mstep. rewrite Hp.
  intros H; injection H as <- <-. unfold Ffi_dl_getHandle. mstep. cbn.
  unfold intptr_value, kWindowsDynamicLibraryProcessPtr.
  destruct (Z.ltb_spec 0 (2 ^ (env_bits env - 1))) as [_|Hn].
  - reflexivity.
  - exfalso. assert (0 < 2 ^ (env_bits env - 1)) by (apply Z.pow_pos_nonneg; lia). lia.
Qed.

(** C10 (code_bug): [Ffi_dl_getHandle] converts the handle to the signed
    [intptr_t] before [Integer::NewFromUint64]; on a 32-bit target a handle
    at or above 2^31 is sign-extended, so the handle 0x80000000 comes back
    as 0xFFFFFFFF80000000 rather than 0x80000000. *)
Theorem getHandle_sign_extends_on_32_bit :
  fst (Ffi_dl_getHandle (DynamicLibrary_New (2 ^ 31))
         (sample_env Windows 32 true 131072) sample_world) = Value (2 ^ 64 - 2 ^ 31) /\
  2 ^ 64 - 2 ^ 31 <> 2 ^ 31.
Proof. vm_compute. split; [reflexivity | discriminate]. Qed.

(* ================================================================== *)
(** * Witnesses *)

Lemma FfiResolve_registered_resolver_witness :
  env_libraries (sample_env Posix 64 true 131072) !! "my_asset" = Some sample_lib /\
  ffi_native_resolver sample_lib = Some sample_resolver /\
  (forall env' : Env,
     env_libraries env' = env_libraries (sample_env Posix 64 true 131072) ->
     FfiResolve "my_asset" "missing_fn" 0 env' sample_world =
     FfiResolve "my_asset" "missing_fn" 0 (sample_env Posix 64 true 131072) sample_world) /\
  (let '(res, w') := FfiResolve "my_asset" "missing_fn" 0
                       (sample_env Posix 64 true 131072) sample_world in
   w_trace w' = w_trace sample_world ++ [EvResolver "missing_fn" 0] /\
   w_heap w' = w_heap sample_world /\
   (sample_resolver "missing_fn" 0 <> 0 -> res = Value (sample_resolver "missing_fn" 0)) /\
   (sample_resolver "missing_fn" 0 = 0 -> exists msg, res = ArgumentError msg /\
      substring_b "missing_fn" msg = true /\ substring_b "my_asset" msg = true)).
Proof.
  assert (Hl : env_libraries (sample_env Posix 64 true 131072) !! "my_asset" = Some sample_lib)
    by reflexivity.
  split; [exact Hl|]. split; [reflexivity|].
  exact (FfiResolve_registered_resolver (sample_env Posix 64 true 131072) sample_world
           "my_asset" "missing_fn" 0 sample_lib sample_resolver Hl eq_refl).
Defined.

Lemma FfiResolve_unregistered_is_process_resolve_witness :
  (forall lib, env_libraries (sample_env Windows 64 true 131072) !! "other" = Some lib ->
     ffi_native_resolver lib = None) /\
  Ffi_dl_processLibrary (sample_env Windows 64 true 131072) sample_world =
    (Value (DynamicLibrary_New 0), sample_world) /\
  (let '(res, w2) := FfiResolve "other" "puts" 1 (sample_env Windows 64 true 131072) sample_world in
   let '((p, err), w3) := ResolveSymbol 0 "puts" (sample_env Windows 64 true 131072) sample_world in
   (forall v, res = Value v <-> (err = None /\ v = p)) /\
   ((exists msg, res = ArgumentError msg) <-> err <> None) /\
   w_trace w2 = w_trace w3 /\
   w_co_task_mem_allocated w2 = w_co_task_mem_allocated w3).
Proof.
  assert (Hr : forall lib, env_libraries (sample_env Windows 64 true 131072) !! "other" = Some lib ->
                 ffi_native_resolver lib = None).
  { intros lib H. vm_compute in H. discriminate H. }
  assert (Hp : Ffi_dl_processLibrary (sample_env Windows 64 true 131072) sample_world =
               (Value (DynamicLibrary_New 0), sample_world)) by reflexivity.
  split; [exact Hr|]. split; [exact Hp|].
  exact (FfiResolve_unregistered_is_process_resolve (sample_env Windows 64 true 131072)
           sample_world "other" "puts" 1 (DynamicLibrary_New 0) sample_world Hr Hp).
Defined.

Lemma ResolveSymbol_sentinel_scans_witness :
  env_platform (sample_env Windows 64 true 131072) = Windows /\
  (0 = kWindowsDynamicLibraryProcessPtr) /\
  (ResolveSymbol 0 "puts" (sample_env Windows 64 true 131072) sample_world =
     LookupSymbolInProcess "puts" (sample_env Windows 64 true 131072) sample_world /\
   (exists new, w_trace (snd (ResolveSymbol 0 "puts" (sample_env Windows 64 true 131072)
                                sample_world)) = w_trace sample_world ++ new /\
      forall h s, ~ In (EvUtilsResolve h s) new) /\
   (forall path dl w', Ffi_dl_open path (sample_env Windows 64 true 131072) sample_world =
                         (Value dl, w') ->
      GetHandle dl <> kWindowsDynamicLibraryProcessPtr)).
Proof.
  split; [reflexivity|]. split; [reflexivity|].
  exact (ResolveSymbol_sentinel_scans (sample_env Windows 64 true 131072) sample_world 0
           "puts" eq_refl eq_refl).
Defined.



(* ================================================================== *)
(** * Further properties of the file's functions *)

(** ** Helpers *)

Lemma heap_neutral_bind {A B} (m : M A) (k : A -> M B) :
  HeapNeutral m -> (forall a, HeapNeutral (k a)) -> HeapNeutral (m ≫= k).
Proof.
  intros Hm Hk env w. unfold mbind, M_bind.
  specialize (Hm env w). destruct (m env w) as [a w1]. simpl in Hm |- *.
  rewrite Hk. exact Hm.
Qed.

Lemma heap_neutral_ret {A} (a : A) : HeapNeutral (mret a).
Proof. intros env w. reflexivity. Qed.

(** [LoadDynamicLibrary] passes the loader's handle through unchanged; it
    reports an error only into a slot it was given, and frees the loader's
    diagnostic either way. *)
Lemma LoadDynamicLibrary_spec (path : option string) (want_error : bool)
  (env : Env) (w : World) :
  let '((h, err), w') := LoadDynamicLibrary path want_error env w in
  h = env_load env path /\
  (err <> None <-> want_error = true /\ env_load env path = 0) /\
  (forall m, err = Some m ->
     m = fmt ["Failed to load dynamic library '"; default "<process>" path; "': ";
              env_load_diag env path]) /\
  w_heap w' = match err with Some m => m :: w_heap w | None => w_heap w end /\
  w_trace w' = w_trace w ++ [EvLoad path].
Proof.
  unfold LoadDynamicLibrary, Utils_LoadDynamicLibrary. mstep. cbn beta iota.
  destruct (Z.eqb_spec (env_load env path) 0) as [H0|H0];
    [destruct want_error|]; cbn -[fmt remove_one].
  - rewrite remove_one_second. split_and!; auto.
    + split; [auto | discriminate].
    + intros m Hm. injection Hm as <-. reflexivity.
  - rewrite remove_one_head. split_and!; auto.
    + split; [intros []; reflexivity | intros [Hf _]; discriminate Hf].
    + discriminate.
  - split_and!; auto.
    + split; [intros []; reflexivity | intros [_ Hf]; contradiction].
    + discriminate.
Qed.

Lemma heap_LoadDynamicLibrary_noslot (p : option string) :
  HeapNeutral (LoadDynamicLibrary p false).
Proof.
  intros env w. pose proof (LoadDynamicLibrary_spec p false env w) as Hs.
  destruct (LoadDynamicLibrary p false env w) as [[h [m|]] w1].
  - destruct Hs as (_ & [Hc _] & _). destruct (Hc ltac:(discriminate)). discriminate.
  - destruct Hs as (_ & _ & _ & Hh & _). exact Hh.
Qed.

Lemma heap_Ffi_dl_open (p : string) : HeapNeutral (Ffi_dl_open p).
Proof.
  intros env w. unfold Ffi_dl_open. unfold mbind at 1, M_bind at 1.
  pose proof (LoadDynamicLibrary_shape (Some p) env w) as Hs.
  destruct (LoadDynamicLibrary (Some p) true env w) as [[h [e|]] w1].
  - destruct Hs as [_ Hh]. mstep. cbn -[remove_one]. rewrite Hh. apply remove_one_head.
  - destruct Hs as [_ Hh]. mstep. cbn. exact Hh.
Qed.

Lemma heap_Ffi_dl_executableLibrary : HeapNeutral Ffi_dl_executableLibrary.
Proof.
  unfold Ffi_dl_executableLibrary. apply heap_neutral_bind.
  - apply heap_LoadDynamicLibrary_noslot.
  - intros a. apply heap_neutral_ret.
Qed.

Lemma heap_Ffi_dl_lookup (d : DynamicLibrary) (s : string) :
  HeapNeutral (Ffi_dl_lookup d s).
Proof.
  intros env w. unfold Ffi_dl_lookup. unfold mbind at 1, M_bind at 1.
  pose proof (ResolveSymbol_shape (GetHandle d) s env w) as Hs.
  destruct (ResolveSymbol (GetHandle d) s env w) as [[p [e|]] w1].
  - destruct Hs as [_ Hh]. mstep. cbn -[remove_one fmt]. rewrite Hh. apply remove_one_head.
  - destruct Hs as [_ Hh]. mstep. cbn. exact Hh.
Qed.

Lemma heap_SymbolExists (h : Z) (s : string) : HeapNeutral (SymbolExists h s).
Proof.
  intros env w. rewrite SymbolExists_via_ResolveSymbol.
  pose proof (ResolveSymbol_shape h s env w) as Hs.
  destruct (ResolveSymbol h s env w) as [[p [e|]] w1].
  - destruct Hs as [_ Hh]. mstep. cbn -[remove_one]. rewrite Hh. apply remove_one_head.
  - destruct Hs as [_ Hh]. mstep. cbn. exact Hh.
Qed.

Lemma heap_Ffi_dl_providesSymbol (d : DynamicLibrary) (s : string) :
  HeapNeutral (Ffi_dl_providesSymbol d s).
Proof.
  unfold Ffi_dl_providesSymbol. apply heap_neutral_bind.
  - apply heap_SymbolExists.
  - intros a. apply heap_neutral_ret.
Qed.

Lemma FfiResolveWithFfiNativeResolver_shape (r : Dart_FfiNativeResolver)
  (symbol : string) (n : Z) (env : Env) (w : World) :
  let '(x, w') := FfiResolveWithFfiNativeResolver r symbol n env w in
  result_shape w w' x.
Proof.
  unfold FfiResolveWithFfiNativeResolver, call_resolver. mstep. cbn beta iota.
  destruct (Z.eqb_spec (r symbol n) 0); cbn -[fmt]; auto.
Qed.

(** [FfiResolve] is a lookup with an error slot, whose error, if any, is
    thrown by [ThrowFfiResolveError]. *)
Lemma FfiResolve_unfold (asset symbol : string) (n : Z) (env : Env) (w : World) :
  exists inner : M (Z * option string),
    (let '(x, w1) := inner env w in result_shape w w1 x) /\
    FfiResolve asset symbol n env w =
      (let '((p, err), w1) := inner env w in
       match err with
       | Some e => ThrowFfiResolveError symbol asset e env w1
       | None => (Value p, w1)
       end).
Proof.
  unfold FfiResolve, GetFfiNativeResolver. mstep. cbn beta iota.
  destruct (env_libraries env !! asset) as [lib|];
    [destruct (ffi_native_resolver lib) as [r|]|]; cbn beta iota.
  - exists (FfiResolveWithFfiNativeResolver r symbol n).
    split; [apply FfiResolveWithFfiNativeResolver_shape|].
    destruct (FfiResolveWithFfiNativeResolver r symbol n env w) as [[p [e|]] w1]; reflexivity.
  - destruct (env_platform env).
    + exists (LookupSymbolInProcess symbol).
      split; [apply LookupSymbolInProcess_shape|].
      destruct (LookupSymbolInProcess symbol env w) as [[p [e|]] w1]; reflexivity.
    + exists (Utils_ResolveSymbolInDynamicLibrary (env_rtld_default env) symbol).
      split; [apply Utils_ResolveSymbolInDynamicLibrary_shape|].
      destruct (Utils_ResolveSymbolInDynamicLibrary (env_rtld_default env) symbol env w)
        as [[p [e|]] w1]; reflexivity.
  - destruct (env_platform env).
    + exists (LookupSymbolInProcess symbol).
      split; [apply LookupSymbolInProcess_shape|].
      destruct (LookupSymbolInProcess symbol env w) as [[p [e|]] w1]; reflexivity.
    + exists (Utils_ResolveSymbolInDynamicLibrary (env_rtld_default env) symbol).
      split; [apply Utils_ResolveSymbolInDynamicLibrary_shape|].
      destruct (Utils_ResolveSymbolInDynamicLibrary (env_rtld_default env) symbol env w)
        as [[p [e|]] w1]; reflexivity.
Qed.

Lemma heap_FfiResolve (asset symbol : string) (n : Z) :
  HeapNeutral (FfiResolve asset symbol n).
Proof.
  intros env w. destruct (FfiResolve_unfold asset symbol n env w) as (inner & Hs & ->).
  destruct (inner env w) as [[p [e|]] w1].
  - destruct Hs as [_ Hh]. unfold ThrowFfiResolveError. mstep.
    cbn -[remove_one fmt]. rewrite Hh. apply remove_one_head.
  - destruct Hs as [_ Hh]. exact Hh.
Qed.

Lemma heap_Ffi_dl_processLibrary : HeapNeutral Ffi_dl_processLibrary.
Proof.
  intros env w. unfold Ffi_dl_processLibrary. mstep.
  destruct (env_platform env); reflexivity.
Qed.

Lemma heap_Ffi_dl_getHandle (d : DynamicLibrary) : HeapNeutral (Ffi_dl_getHandle d).
Proof. intros env w. reflexivity. Qed.

Lemma heap_run_op (o : Op) : HeapNeutral (run_op o).
Proof.
  destruct o; unfold run_op; apply heap_neutral_bind;
    first [ intros a; apply heap_neutral_ret
          | apply heap_Ffi_dl_open | apply heap_Ffi_dl_processLibrary
          | apply heap_Ffi_dl_executableLibrary | apply heap_Ffi_dl_lookup
          | apply heap_Ffi_dl_getHandle | apply heap_Ffi_dl_providesSymbol
          | apply heap_FfiResolve ].
Qed.





Lemma ResolveSymbol_nonnull (h : Z) (s : string) (env : Env) (w : World) :
  h <> 0 -> ResolveSymbol h s env w = Utils_ResolveSymbolInDynamicLibrary h s env w.
Proof.
  intros Hh. unfold ResolveSymbol, kWindowsDynamicLibraryProcessPtr. mstep.
  destruct (env_platform env); [|reflexivity].
  destruct (Z.eqb_spec h 0); [contradiction | reflexivity].
Qed.

(** ** Error messages are never leaked *)

(** Every native entry frees each error message it or its callees malloc:
    after any sequence of [Ffi_dl_open], [Ffi_dl_processLibrary],
    [Ffi_dl_executableLibrary], [Ffi_dl_lookup], [Ffi_dl_getHandle],
    [Ffi_dl_providesSymbol] and [FfiResolve] calls, whether they return or
    throw, the heap of malloc'ed messages is what it was before. *)
Theorem native_entries_free_their_messages (ops : list Op) (env : Env) (w : World) :
  w_heap (snd (run_ops ops env w)) = w_heap w.
Proof.
  revert w. induction ops as [|o rest IH]; intros w; [reflexivity|].
  simpl. unfold mbind at 1, M_bind at 1.
  pose proof (heap_run_op o env w) as Ho.
  destruct (run_op o env w) as [[] w1]. simpl in Ho |- *. rewrite IH. exact Ho.
Qed.


(** ** Lookups and existence checks *)

(** [Ffi_dl_lookup] never hands back a null address: it returns the
    non-null pointer [ResolveSymbol] found, or throws an [ArgumentError]
    whose message names the symbol and contains [ResolveSymbol]'s error. *)
Theorem Ffi_dl_lookup_nonnull_or_throws (dlib : DynamicLibrary) (s : string)
  (env : Env) (w : World) :
  (forall p, fst (Ffi_dl_lookup dlib s env w) = Value p ->
     p <> 0 /\ fst (ResolveSymbol (GetHandle dlib) s env w) = (p, None)) /\
  (forall msg, fst (Ffi_dl_lookup dlib s env w) = ArgumentError msg ->
     exists e, snd (fst (ResolveSymbol (GetHandle dlib) s env w)) = Some e /\
       substring_b s msg = true /\ substring_b e msg = true).
Proof.
  unfold Ffi_dl_lookup. unfold mbind at 1 3, M_bind at 1 3.
  pose proof (ResolveSymbol_shape (GetHandle dlib) s env w) as Hs.
  destruct (ResolveSymbol (GetHandle dlib) s env w) as [[p [e|]] w1];
    destruct Hs as [Hp _]; mstep; cbn -[fmt remove_one]; split.
  - intros p' H; discriminate H.
  - intros msg H. injection H as <-. exists e.
    split; [reflexivity|]. split; apply substring_b_fmt; simpl; tauto.
  - intros p' H. injection H as <-. auto.
  - intros msg H; discriminate H.
Qed.

(** [Ffi_dl_providesSymbol] never throws, and answers [true] exactly when
    [Ffi_dl_lookup] on the same library and symbol would return a pointer
    rather than throw; both make the same OS calls. *)
Theorem providesSymbol_iff_lookup_returns (dlib : DynamicLibrary) (s : string)
  (env : Env) (w : World) :
  (exists b, fst (Ffi_dl_providesSymbol dlib s env w) = Value b) /\
  (fst (Ffi_dl_providesSymbol dlib s env w) = Value true <->
     exists p, fst (Ffi_dl_lookup dlib s env w) = Value p) /\
  (fst (Ffi_dl_providesSymbol dlib s env w) = Value false <->
     exists msg, fst (Ffi_dl_lookup dlib s env w) = ArgumentError msg) /\
  w_trace (snd (Ffi_dl_providesSymbol dlib s env w)) =
    w_trace (snd (Ffi_dl_lookup dlib s env w)).
Proof.
  pose proof (SymbolExists_via_ResolveSymbol (GetHandle dlib) s env w) as HS.
  unfold Ffi_dl_providesSymbol, Ffi_dl_lookup. mstep.
  destruct (SymbolExists (GetHandle dlib) s env w) as [b w2].
  destruct (ResolveSymbol (GetHandle dlib) s env w) as [[p [e|]] w1];
    mstep; cbn -[fmt remove_one] in *; injection HS as Hb Hw; subst b w2;
    split_and!; naive_solver.
Qed.

(** A library returned by [Ffi_dl_open] holds the loader's non-null handle
    for its path, so lookups in it go to the per-handle lookup
    [Utils::ResolveSymbolInDynamicLibrary] with that handle, on Windows as
    on POSIX: never to the process-wide scan. *)
Theorem opened_library_resolves_per_handle (path : string) (env : Env) (w : World)
  (dl : DynamicLibrary) (w1 : World) :
  Ffi_dl_open path env w = (Value dl, w1) ->
  GetHandle dl = env_load env (Some path) /\ GetHandle dl <> 0 /\
  forall s w2, ResolveSymbol (GetHandle dl) s env w2 =
               Utils_ResolveSymbolInDynamicLibrary (GetHandle dl) s env w2.
Proof.
  intros Hopen.
  pose proof (Ffi_dl_open_handle_nonnull path env w dl w1 Hopen) as Hnn.
  split_and!; [| exact Hnn | intros s w2; apply ResolveSymbol_nonnull; exact Hnn].
  revert Hopen. unfold Ffi_dl_open. unfold mbind at 1, M_bind at 1.
  pose proof (LoadDynamicLibrary_spec (Some path) true env w) as Hs.
  destruct (LoadDynamicLibrary (Some path) true env w) as [[h [e|]] w3].
  - mstep. cbn. discriminate.
  - destruct Hs as [Hh _]. mstep. cbn. intros H. injection H as <- _. exact Hh.
Qed.

(** ** The Windows process-wide scanner *)


(** A symbol exported by one of the modules held in the 1024-entry buffer is
    found whatever the module count: with the process handle acquired and
    the enumeration successful, the scanner returns the first hit among
    those modules with no error. *)
Theorem LookupSymbolInProcess_hit_in_buffer (s : string) (env : Env) (w : World) (r : Z) :
  env_open_process env = true -> env_enum_ok env = true ->
  first_hit env (firstn modules_capacity (env_modules env)) s = Some r ->
  fst (LookupSymbolInProcess s env w) = (r, None).
Proof.
  intros Ho He Hr.
  destruct (modules_prefix env) as [tail Ht].
  assert (Hh : first_hit env (map (modules_at env) (seq 0 (length (env_modules env)))) s
               = Some r) by (rewrite Ht; apply first_hit_app; exact Hr).
  lookup_cases; congruence.
Qed.

(** ** The FFI native resolver *)

(** [FfiResolve] never returns a null address: it returns a non-null
    pointer or throws an [ArgumentError] whose message names both the
    symbol and the asset, whether the asset's resolver or the process-wide
    resolution was used. *)
Theorem FfiResolve_nonnull_or_throws (asset symbol : string) (n : Z)
  (env : Env) (w : World) :
  (forall v, fst (FfiResolve asset symbol n env w) = Value v -> v <> 0) /\
  (forall msg, fst (FfiResolve asset symbol n env w) = ArgumentError msg ->
     substring_b symbol msg = true /\ substring_b asset msg = true).
Proof.
  destruct (FfiResolve_unfold asset symbol n env w) as (inner & Hs & ->).
  destruct (inner env w) as [[p [e|]] w1]; destruct Hs as [Hp _].
  - unfold ThrowFfiResolveError. mstep. cbn -[fmt remove_one]. split.
    + intros v H; discriminate H.
    + intros msg H. injection H as <-.
      split; apply substring_b_fmt; simpl; tauto.
  - cbn. split.
    + intros v H. injection H as <-. exact Hp.
    + intros msg H; discriminate H.
Qed.


(** ** Library handles as integers *)

(** [Ffi_dl_getHandle] returns a handle below 2^(bits-1) unchanged, and
    sign-extends a handle with its top bit set: on a [bits]-wide target it
    adds 2^64 - 2^bits.  On a 64-bit target every handle comes back
    unchanged. *)
Theorem Ffi_dl_getHandle_value (env : Env) (w : World) (h : Z) :
  1 <= env_bits env <= 64 -> 0 <= h < 2 ^ env_bits env ->
  fst (Ffi_dl_getHandle (DynamicLibrary_New h) env w) =
    Value (if Z.ltb h (2 ^ (env_bits env - 1)) then h
           else h + (2 ^ 64 - 2 ^ env_bits env)) /\
  (env_bits env = 64 -> fst (Ffi_dl_getHandle (DynamicLibrary_New h) env w) = Value h).
Proof.
  intros Hb Hh.
  assert (Hle : 2 ^ env_bits env <= 2 ^ 64) by (apply Z.pow_le_mono_r; lia).
  assert (Hpos : 0 < 2 ^ (env_bits env - 1)) by (apply Z.pow_pos_nonneg; lia).
  assert (Hv : fst (Ffi_dl_getHandle (DynamicLibrary_New h) env w) =
    Value (if Z.ltb h (2 ^ (env_bits env - 1)) then h
           else h + (2 ^ 64 - 2 ^ env_bits env))).
  { unfold Ffi_dl_getHandle. mstep. cbn. unfold intptr_value, to_uint64. f_equal.
    destruct (Z.ltb_spec h (2 ^ (env_bits env - 1))).
    - apply Z.mod_small. lia.
    - rewrite <- (Z.mod_add _ 1 (2 ^ 64)) by lia.
      replace (h - 2 ^ env_bits env + 1 * 2 ^ 64) with (h + (2 ^ 64 - 2 ^ env_bits env))
        by lia.
      apply Z.mod_small. lia. }
  split; [exact Hv|]. intros H64. rewrite Hv, H64.
  destruct (Z.ltb h (2 ^ (64 - 1))); f_equal; lia.
Qed.

(** ** Witnesses of the further properties *)

Lemma opened_library_resolves_per_handle_witness :
  Ffi_dl_open "libfoo" (sample_env Windows 64 true 0) sample_world =
    (Value (DynamicLibrary_New 65536),
     snd (Ffi_dl_open "libfoo" (sample_env Windows 64 true 0) sample_world)) /\
  (GetHandle (DynamicLibrary_New 65536) = env_load (sample_env Windows 64 true 0) (Some "libfoo") /\
   GetHandle (DynamicLibrary_New 65536) <> 0 /\
   forall s w2, ResolveSymbol (GetHandle (DynamicLibrary_New 65536)) s
                  (sample_env Windows 64 true 0) w2 =
                Utils_ResolveSymbolInDynamicLibrary (GetHandle (DynamicLibrary_New 65536)) s
                  (sample_env Windows 64 true 0) w2).
Proof.
  assert (Ho : Ffi_dl_open "libfoo" (sample_env Windows 64 true 0) sample_world =
    (Value (DynamicLibrary_New 65536),
     snd (Ffi_dl_open "libfoo" (sample_env Windows 64 true 0) sample_world)))
    by reflexivity.
  split; [exact Ho|].
  exact (opened_library_resolves_per_handle "libfoo" (sample_env Windows 64 true 0)
           sample_world (DynamicLibrary_New 65536) _ Ho).
Defined.

Lemma LookupSymbolInProcess_hit_in_buffer_witness :
  env_open_process (sample_env Windows 64 true 131072) = true /\
  env_enum_ok (sample_env Windows 64 true 131072) = true /\
  first_hit (sample_env Windows 64 true 131072)
    (firstn modules_capacity (env_modules (sample_env Windows 64 true 131072))) "puts" = Some 999 /\
  fst (LookupSymbolInProcess "puts" (sample_env Windows 64 true 131072) sample_world) = (999, None).
Proof.
  assert (Ho : env_open_process (sample_env Windows 64 true 131072) = true) by reflexivity.
  assert (He : env_enum_ok (sample_env Windows 64 true 131072) = true) by reflexivity.
  assert (Hf : first_hit (sample_env Windows 64 true 131072)
    (firstn modules_capacity (env_modules (sample_env Windows 64 true 131072))) "puts" = Some 999)
    by (vm_compute; reflexivity).
  split; [exact Ho|]. split; [exact He|]. split; [exact Hf|].
  exact (LookupSymbolInProcess_hit_in_buffer "puts" (sample_env Windows 64 true 131072)
           sample_world 999 Ho He Hf).
Defined.


Lemma Ffi_dl_getHandle_value_witness :
  1 <= env_bits (sample_env Posix 32 true 131072) <= 64 /\
  0 <= 2 ^ 31 + 5 < 2 ^ env_bits (sample_env Posix 32 true 131072) /\
  (fst (Ffi_dl_getHandle (DynamicLibrary_New (2 ^ 31 + 5)) (sample_env Posix 32 true 131072)
          sample_world) =
     Value (if Z.ltb (2 ^ 31 + 5) (2 ^ (env_bits (sample_env Posix 32 true 131072) - 1))
            then 2 ^ 31 + 5
            else 2 ^ 31 + 5 + (2 ^ 64 - 2 ^ env_bits (sample_env Posix 32 true 131072))) /\
   (env_bits (sample_env Posix 32 true 131072) = 64 ->
      fst (Ffi_dl_getHandle (DynamicLibrary_New (2 ^ 31 + 5)) (sample_env Posix 32 true 131072)
             sample_world) = Value (2 ^ 31 + 5))).
Proof.
  assert (Hb : 1 <= env_bits (sample_env Posix 32 true 131072) <= 64) by (simpl; lia).
  assert (Hh : 0 <= 2 ^ 31 + 5 < 2 ^ env_bits (sample_env Posix 32 true 131072))
    by (simpl; lia).
  split; [exact Hb|]. split; [exact Hh|].
  exact (Ffi_dl_getHandle_value (sample_env Posix 32 true 131072) sample_world (2 ^ 31 + 5)
           Hb Hh).
Defined.
